(** * Union: the runtime dispatcher of [index.ts]

    The repository is a TypeScript library of type-level definitions
    ([Union], [Narrow], [Matches], [ExhausiveMatches], ...) and two runtime
    functions, [match] and [matches].  The types are erased by the compiler;
    this development embeds the two functions and proves the behavioural
    contract of the dispatcher.

    Modelling choices, all local to this file:
    - objects live in a store indexed by references, so that a handler may
      mutate the value or the table it was given and the dispatcher's own
      reads and writes can be told apart from the handler's;
    - a function value is a name, interpreted by a parameter [invoke] that
      gives the body's effect on the world and its completion;
    - every call the dispatcher makes is recorded in a call log (ghost
      data, not visible to the program);
    - the dispatcher is embedded twice.  [match_] is [match] on plain
      objects: an object is the list of its own enumerable data properties
      in the order [Object.entries] yields them, and nothing hidden or
      inherited bears the names [__type] and ["*"], the only two names
      [match] looks up.  [match_full] is [match] on objects in full, with
      own properties that are not enumerable and with a prototype chain,
      where [Object.entries], [in] and the property reads differ;
      [match_full_on_plain_objects] shows that the two agree on plain
      objects.  Accessor properties and proxies are in neither. *)

From Stdlib Require Import String List Bool ZArith PArith.
From Stdlib Require Import Permutation.
Import ListNotations.
Open Scope string_scope.

(** ** Values, objects and the store *)

Definition loc := positive.
Definition fname := positive.

Inductive val : Type :=
| VUndefined
| VNumber (n : Z)          (* integer-valued numbers only *)
| VString (s : string)
| VObject (l : loc)        (* reference to an object of the store *)
| VFunction (f : fname).   (* reference to a function *)

(** Own enumerable properties, in enumeration order. *)
Definition object := list (string * val).

(** [Object.entries(o)]. *)
Definition entries (o : object) : list (string * val) := o.

(** Whether [o] has an entry under [k].  On a plain object this is
    [k in o]. *)
Fixpoint prop_in (k : string) (o : object) : bool :=
  match o with
  | [] => false
  | (k', _) :: rest => if String.eqb k k' then true else prop_in k rest
  end.

(** The value of the entry of [o] under [k], [undefined] when there is
    none.  On a plain object this is [o[k]]. *)
Fixpoint get (k : string) (o : object) : val :=
  match o with
  | [] => VUndefined
  | (k', v) :: rest => if String.eqb k k' then v else get k rest
  end.

(** [a === b]. *)
Definition strict_equals (a b : val) : bool :=
  match a, b with
  | VUndefined, VUndefined => true
  | VNumber m, VNumber n => Z.eqb m n
  | VString s, VString t => String.eqb s t
  | VObject l, VObject m => Pos.eqb l m
  | VFunction f, VFunction g => Pos.eqb f g
  | _, _ => false
  end.

(** What a [throw] carries: an instance of an error class, described by
    the class name and the message, or any other value. *)
Inductive exn : Type :=
| ErrorObject (name message : string)
| Thrown (v : val).

Inductive completion : Type :=
| Return (v : val)
| Throw (e : exn).

(** Everything a function body can read or write: the objects of the
    store (a reference nothing was stored at denotes the empty object) and
    what was printed on the console. *)
Record world : Type := mkWorld {
  heap : loc -> object;
  console : list string
}.

(** The two call expressions of [match]. *)
Inductive site : Type :=
| ForOfBody (key : string)   (* [handler(input)] inside the loop *)
| WildcardBranch.            (* [matchers["*"](input)] after the loop *)

Record call_event : Type := mkCall {
  call_site : site;
  callee : fname;
  this_arg : val;
  argument : val
}.

Record outcome : Type := mkOutcome {
  result : completion;
  final : world;
  calls : list call_event
}.

(** ** Well-formed arguments (what the static types promise) *)

(** [Signature<string>]: the object has a string under [__type]. *)
Definition tagged (o : object) (d : string) : Prop :=
  get "__type" o = VString d.

Fixpoint distinct_keys (o : object) : bool :=
  match o with
  | [] => true
  | (k, _) :: rest => negb (prop_in k rest) && distinct_keys rest
  end.

Definition is_function (v : val) : bool :=
  match v with
  | VFunction _ => true
  | _ => false
  end.

(** A handler table: a mapping (no key twice) from names to functions. *)
Definition handler_table (o : object) : bool :=
  distinct_keys o && forallb (fun kv => is_function (snd kv)) o.

(** ** The dispatcher *)

(** The error of the last line of [match]: [new Error("Pattern unmacthed")],
    an instance of the generic class [Error] (the message is spelled as in
    the source). *)
Definition pattern_unmatched : exn := ErrorObject "Error" "Pattern unmacthed".

Definition error_class (e : exn) : option string :=
  match e with
  | ErrorObject name _ => Some name
  | Thrown _ => None
  end.

Definition error_message (e : exn) : option string :=
  match e with
  | ErrorObject _ message => Some message
  | Thrown _ => None
  end.

(** The message of the [TypeError] of a call of something that is not a
    function: it names the expression that was called, [handler] inside
    the loop and [matchers["*"]] after it. *)
Definition not_callable_message (s : site) : string :=
  match s with
  | ForOfBody _ => "handler is not a function"
  | WildcardBranch => "matchers.* is not a function"
  end.

Section Dispatcher.

(** The bodies of the functions of the program: [invoke f this arg w] is
    the completion of calling [f] with receiver [this] and argument [arg]
    in world [w], and the world it leaves. *)
Variable invoke : fname -> val -> val -> world -> completion * world.

(** A call expression [fn(arg)] evaluated by the dispatcher.  Calling
    something that is not a function raises a [TypeError]. *)
Definition call (s : site) (fn this arg : val) (w : world) : outcome :=
  match fn with
  | VFunction f =>
      let r := invoke f this arg w in
      {| result := fst r; final := snd r;
         calls := [ {| call_site := s; callee := f;
                       this_arg := this; argument := arg |} ] |}
  | _ =>
      {| result := Throw (ErrorObject "TypeError" (not_callable_message s));
         final := w; calls := [] |}
  end.

(** The outcome of the dispatcher calling function [f] on [input] at site
    [s], and nothing else. *)
Definition called (s : site) (f : fname) (this : val) (input : loc)
    (w : world) : outcome :=
  {| result := fst (invoke f this (VObject input) w);
     final := snd (invoke f this (VObject input) w);
     calls := [mkCall s f this (VObject input)] |}.

(** The loop [for (const [key, handler] of Object.entries(matchers))]:
    [Some] is the [return] taken inside the body, [None] means that the
    loop ran to its end.  The module is strict code, so the plain call
    [handler(input)] has receiver [undefined]. *)
Fixpoint for_of_entries (input : loc) (w : world)
    (es : list (string * val)) : option outcome :=
  match es with
  | [] => None
  | (key, handler) :: rest =>
      if strict_equals (get "__type" (heap w input)) (VString key)
      then Some (call (ForOfBody key) handler VUndefined (VObject input) w)
      else for_of_entries input w rest
  end.

(** [match(input, matchers)].  The method call [matchers["*"](input)] has
    receiver [matchers]. *)
Definition match_ (input matchers : loc) (w : world) : outcome :=
  match for_of_entries input w (entries (heap w matchers)) with
  | Some returned => returned
  | None =>
      if prop_in "*" (heap w matchers)
      then call WildcardBranch (get "*" (heap w matchers))
                (VObject matchers) (VObject input) w
      else {| result := Throw pattern_unmatched; final := w; calls := [] |}
  end.

(** [matches(matchers)]: the closure [(input) => match(input, matchers)]. *)
Definition matches (matchers : loc) : loc -> world -> outcome :=
  fun input => match_ input matchers.

(** A handler is pure when it leaves the world as it found it and its
    completion depends on nothing but the objects it was given. *)
Definition same_object (w1 w2 : world) (v : val) : Prop :=
  match v with
  | VObject l => heap w1 l = heap w2 l
  | _ => True
  end.

Definition pure_handler (f : fname) : Prop :=
  (forall this arg w, snd (invoke f this arg w) = w) /\
  (forall this arg w1 w2,
      same_object w1 w2 this -> same_object w1 w2 arg ->
      fst (invoke f this arg w1) = fst (invoke f this arg w2)).

Definition pure_table (o : object) : Prop :=
  forall k f, In (k, VFunction f) o -> pure_handler f.

End Dispatcher.

(** Successive applications of a matcher to a list of inputs, each one
    started in the world the previous one left. *)
Fixpoint run_each (m : loc -> world -> outcome) (inputs : list loc)
    (w : world) : list outcome :=
  match inputs with
  | [] => []
  | v :: rest => let o := m v w in o :: run_each m rest (final o)
  end.

(** Which handler a run selected: the call site, the function and the
    receiver of every call made, without the argument. *)
Definition selected (o : outcome) : list (site * fname * val) :=
  map (fun c => (call_site c, callee c, this_arg c)) (calls o).

(** ** The README's example as a concrete program *)

Definition store (l : loc) (o : object) (h : loc -> object) : loc -> object :=
  fun l' => if Pos.eqb l' l then o else h l'.

Definition object_of (w : world) (v : val) : object :=
  match v with
  | VObject l => heap w l
  | _ => []
  end.

(** [console.log(s)]. *)
Definition console_log (s : string) (w : world) : world :=
  {| heap := heap w; console := console w ++ [s] |}.

Definition text_of (v : val) : string :=
  match v with
  | VString s => s
  | _ => "undefined"
  end.

Definition log_message : fname := 1%positive.
Definition get_length : fname := 2%positive.
Definition log_unexpected : fname := 3%positive.
Definition get_message : fname := 4%positive.

(** - [log_message]: [({ message }) => console.log(message)]
    - [get_length]: [({ length }) => length]
    - [log_unexpected]: [() => console.log("Got an unexpected message")]
    - [get_message]: [({ message }) => message]
    - any other name: [() => { throw new RangeError("boom") }] *)
Definition demo_invoke (f : fname) (this arg : val) (w : world)
    : completion * world :=
  match f with
  | 1%positive =>
      (Return VUndefined, console_log (text_of (get "message" (object_of w arg))) w)
  | 2%positive => (Return (get "length" (object_of w arg)), w)
  | 3%positive => (Return VUndefined, console_log "Got an unexpected message" w)
  | 4%positive => (Return (get "message" (object_of w arg)), w)
  | _ => (Throw (ErrorObject "RangeError" "boom"), w)
  end.

Definition hello : loc := 1%positive.
Definition blob : loc := 2%positive.
Definition unknown : loc := 3%positive.
Definition star : loc := 4%positive.
Definition bye : loc := 5%positive.
Definition handlers : loc := 10%positive.
Definition handlers_with_default : loc := 11%positive.
Definition pure_handlers : loc := 12%positive.
Definition throwing_handlers : loc := 13%positive.

Definition demo_heap : loc -> object :=
  store hello [("__type", VString "text"); ("message", VString "Hello!")]
  (store blob [("__type", VString "binary"); ("length", VNumber 10)]
  (store unknown [("__type", VString "unknown")]
  (store star [("__type", VString "*")]
  (store bye [("__type", VString "text"); ("message", VString "Bye")]
  (store handlers
     [("text", VFunction log_message); ("binary", VFunction get_length)]
  (store handlers_with_default
     [("text", VFunction log_message); ("binary", VFunction get_length);
      ("*", VFunction log_unexpected)]
  (store pure_handlers
     [("text", VFunction get_message); ("binary", VFunction get_length)]
  (store throwing_handlers
     [("text", VFunction 9%positive); ("binary", VFunction get_length)]
  (fun _ => []))))))))).

Definition demo_world : world := {| heap := demo_heap; console := [] |}.

(** ** Tables written as object literals *)

(** The entries of an object literal of type [Matches<Unity, Out>], for a
    union [Unity] whose discriminants are the finitely many names of the
    list: one function under every name.  This is a condition on the own
    enumerable entries, which is what a literal has; the type itself is
    structural and also holds of objects that inherit their handlers. *)
Definition literal_Matches (Unity : list string) (o : object) : bool :=
  forallb (fun Key => is_function (get Key o)) Unity.

(** An optional entry of function type: missing, or a function, or (as
    the compiler allows by default) [undefined]. *)
Definition optional_function (v : val) : bool :=
  match v with
  | VFunction _ | VUndefined => true
  | _ => false
  end.

(** The entries of an object literal of type
    [Partial<Matches<Unity, Out>>]. *)
Definition literal_Partial_Matches (Unity : list string) (o : object) : bool :=
  forallb (fun Key => optional_function (get Key o)) Unity.

(** The entries of an object literal of type
    [ExhausiveMatches<Unity, Out>], that is
    [({ "*": (input: Unity) => Out } & Partial<Matches<Unity, Out>>)
     | Matches<Unity, Out>]. *)
Definition literal_ExhausiveMatches (Unity : list string) (o : object)
    : bool :=
  (is_function (get "*" o) && literal_Partial_Matches Unity o)
  || literal_Matches Unity o.

(** What a call of the dispatcher was, without the receiver. *)
Definition dispatched (o : outcome) : list (site * fname * val) :=
  map (fun c => (call_site c, callee c, argument c)) (calls o).

(** What [match] does once the loop has ended without a [return]. *)
Definition after_loop
    (invoke : fname -> val -> val -> world -> completion * world)
    (input matchers : loc) (w : world) : outcome :=
  if prop_in "*" (heap w matchers)
  then call invoke WildcardBranch (get "*" (heap w matchers))
            (VObject matchers) (VObject input) w
  else {| result := Throw pattern_unmatched; final := w; calls := [] |}.

(** The [TypeError] of a call, at site [s], of something that is not a
    function. *)
Definition not_a_function (s : site) (w : world) : outcome :=
  {| result := Throw (ErrorObject "TypeError" (not_callable_message s));
     final := w; calls := [] |}.

(** ** Inputs and tables at the edge of the types *)

Definition untagged : loc := 20%positive.
Definition numbered : loc := 21%positive.
Definition numbered_handlers : loc := 22%positive.
Definition partial_handlers : loc := 23%positive.
Definition reordered_handlers : loc := 24%positive.
Definition default_first_handlers : loc := 25%positive.
Definition more_handlers : loc := 26%positive.

(** - [untagged]: [{ message: "?" }]
    - [numbered]: [{ __type: 1 }]
    - [numbered_handlers]: [{ "1": ({ length }) => length }]
    - [partial_handlers]: [{ "*": ..., text: undefined }]
    - [reordered_handlers]: the entries of [handlers], the other way round
    - [default_first_handlers]: [{ "*": ..., text: ..., binary: ... }]
    - [more_handlers]: [handlers] with one more entry, [unknown] *)
Definition edge_heap : loc -> object :=
  store untagged [("message", VString "?")]
  (store numbered [("__type", VNumber 1)]
  (store numbered_handlers [("1", VFunction get_length)]
  (store partial_handlers
     [("*", VFunction log_unexpected); ("text", VUndefined)]
  (store reordered_handlers
     [("binary", VFunction get_length); ("text", VFunction log_message)]
  (store default_first_handlers
     [("*", VFunction log_unexpected); ("text", VFunction log_message);
      ("binary", VFunction get_length)]
  (store more_handlers
     [("text", VFunction log_message); ("binary", VFunction get_length);
      ("unknown", VFunction get_message)]
  demo_heap)))))).

Definition edge_world : world := {| heap := edge_heap; console := [] |}.

(** ** Objects in full: hidden properties and prototypes *)

(** The world with what a plain object leaves out.  [plain] keeps the own
    enumerable properties of every object and the console; [hidden] gives
    the own properties of an object that are not enumerable; [chain] gives
    the objects of its prototype chain, the nearest first (the empty list
    for an object without a prototype). *)
Record realm : Type := mkRealm {
  plain : world;
  hidden : loc -> object;
  chain : loc -> list loc
}.

Definition own_properties (R : realm) (l : loc) : object :=
  (heap (plain R) l ++ hidden R l)%list.

(** [k in o]: an own property, enumerable or not, or an inherited one. *)
Definition has_property (R : realm) (l : loc) (k : string) : bool :=
  existsb (fun l' => prop_in k (own_properties R l')) (l :: chain R l).

(** The value of [k] in the first of the objects [ls] that has it. *)
Fixpoint read_from (R : realm) (k : string) (ls : list loc) : val :=
  match ls with
  | [] => VUndefined
  | l :: rest =>
      if prop_in k (own_properties R l)
      then get k (own_properties R l)
      else read_from R k rest
  end.

(** [o[k]] and [o.k]: the own property, or else the inherited one, or else
    [undefined]. *)
Definition read (R : realm) (l : loc) (k : string) : val :=
  read_from R k (l :: chain R l).

Record run : Type := mkRun {
  completed : completion;
  realm_after : realm;
  made : list call_event
}.

(** Two realms show the same object at [l]: the same own properties,
    enumerable and hidden, and the same prototype chain with the same
    objects on it. *)
Definition same_view (R1 R2 : realm) (l : loc) : Prop :=
  chain R1 l = chain R2 l /\
  forall l', In l' (l :: chain R1 l) ->
    heap (plain R1) l' = heap (plain R2) l' /\ hidden R1 l' = hidden R2 l'.

Definition same_view_of (R1 R2 : realm) (v : val) : Prop :=
  match v with
  | VObject l => same_view R1 R2 l
  | _ => True
  end.

(** Nothing hidden or inherited bears the name [k] at [l]: the object is
    plain as far as [k] goes. *)
Definition plain_at (R : realm) (l : loc) (k : string) : Prop :=
  prop_in k (hidden R l) = false /\
  forall l', In l' (chain R l) -> prop_in k (own_properties R l') = false.

Section FullDispatcher.

Variable invoke : fname -> val -> val -> realm -> completion * realm.

Definition call_full (s : site) (fn this arg : val) (R : realm) : run :=
  match fn with
  | VFunction f =>
      let r := invoke f this arg R in
      {| completed := fst r; realm_after := snd r;
         made := [ {| call_site := s; callee := f;
                      this_arg := this; argument := arg |} ] |}
  | _ =>
      {| completed := Throw (ErrorObject "TypeError" (not_callable_message s));
         realm_after := R; made := [] |}
  end.

(** The loop over [Object.entries(matchers)], the own enumerable
    properties of the table; [input.__type] is a property read. *)
Fixpoint for_of_entries_full (input : loc) (R : realm)
    (es : list (string * val)) : option run :=
  match es with
  | [] => None
  | (key, handler) :: rest =>
      if strict_equals (read R input "__type") (VString key)
      then Some (call_full (ForOfBody key) handler VUndefined
                   (VObject input) R)
      else for_of_entries_full input R rest
  end.

(** What [match] does once the loop has ended without a [return]:
    ["*" in matchers], then [matchers["*"](input)] or the [throw]. *)
Definition after_loop_full (input matchers : loc) (R : realm) : run :=
  if has_property R matchers "*"
  then call_full WildcardBranch (read R matchers "*")
         (VObject matchers) (VObject input) R
  else {| completed := Throw pattern_unmatched; realm_after := R;
          made := [] |}.

(** [match(input, matchers)] on objects in full. *)
Definition match_full (input matchers : loc) (R : realm) : run :=
  match for_of_entries_full input R (entries (heap (plain R) matchers)) with
  | Some returned => returned
  | None => after_loop_full input matchers R
  end.

(** A handler is pure when it leaves the realm as it found it and its
    completion depends on nothing but the objects it was given, as the
    realm shows them. *)
Definition pure_handler_full (f : fname) : Prop :=
  (forall this arg R, snd (invoke f this arg R) = R) /\
  (forall this arg R1 R2,
      same_view_of R1 R2 this -> same_view_of R1 R2 arg ->
      fst (invoke f this arg R1) = fst (invoke f this arg R2)).

(** Every function that [match] may call from the table at [matchers] is
    pure: the functions of its entries and the one it reads under ["*"]. *)
Definition pure_table_full (R : realm) (matchers : loc) : Prop :=
  forall f,
    (exists k, In (k, VFunction f) (heap (plain R) matchers)) \/
    read R matchers "*" = VFunction f ->
    pure_handler_full f.

End FullDispatcher.

(** ** A realm for the example *)

Definition object_prototype : loc := 100%positive.
Definition handler_class : loc := 31%positive.
Definition class_handlers : loc := 30%positive.

(** Every object inherits from [Object.prototype], whose own properties
    are not enumerable; [class_handlers] is an instance of a class whose
    methods [text] and [binary] sit, not enumerable, on its prototype
    [handler_class]. *)
Definition demo_chain (l : loc) : list loc :=
  if Pos.eqb l object_prototype then []
  else if Pos.eqb l class_handlers then [handler_class; object_prototype]
  else [object_prototype].

Definition demo_hidden (l : loc) : object :=
  if Pos.eqb l object_prototype
  then [("constructor", VFunction 50%positive);
        ("toString", VFunction 51%positive)]
  else if Pos.eqb l handler_class
  then [("constructor", VFunction 52%positive);
        ("text", VFunction get_message); ("binary", VFunction get_length)]
  else [].

Definition demo_realm : realm :=
  {| plain := edge_world; hidden := demo_hidden; chain := demo_chain |}.

(** [demo_realm] after [Object.prototype["*"] = ({ length }) => length]. *)
Definition polluted_realm : realm :=
  {| plain := {| heap := store object_prototype
                           [("*", VFunction get_length)] edge_heap;
                 console := [] |};
     hidden := demo_hidden; chain := demo_chain |}.

Definition read_of (R : realm) (v : val) (k : string) : val :=
  match v with
  | VObject l => read R l k
  | _ => VUndefined
  end.

(** The functions of [demo_invoke], on a realm. *)
Definition demo_invoke_full (f : fname) (this arg : val) (R : realm)
    : completion * realm :=
  match f with
  | 1%positive =>
      (Return VUndefined,
       {| plain := console_log (text_of (read_of R arg "message")) (plain R);
          hidden := hidden R; chain := chain R |})
  | 2%positive => (Return (read_of R arg "length"), R)
  | 3%positive =>
      (Return VUndefined,
       {| plain := console_log "Got an unexpected message" (plain R);
          hidden := hidden R; chain := chain R |})
  | 4%positive => (Return (read_of R arg "message"), R)
  | _ => (Throw (ErrorObject "RangeError" "boom"), R)
  end.

(** [demo_realm] with another object changed and something already
    printed. *)
Definition noisy_realm : realm :=
  {| plain := {| heap := store untagged [("message", VString "!")] edge_heap;
                 console := ["earlier output"] |};
     hidden := demo_hidden; chain := demo_chain |}.

(** ** Objects as finite mappings *)

Lemma prop_in_In (k : string) (v : val) (o : object) :
  In (k, v) o -> prop_in k o = true.
Proof.
  induction o as [|[k' v'] rest IH]; simpl; intros Hin.
  - contradiction.
  - destruct (String.eqb_spec k k') as [_|Hne]; [reflexivity|].
    destruct Hin as [Heq|Hin]; [congruence | auto].
Qed.

Lemma get_In (k : string) (v : val) (o : object) :
  distinct_keys o = true -> In (k, v) o -> get k o = v.
Proof.
  induction o as [|[k' v'] rest IH]; simpl; intros Hd Hin.
  - contradiction.
  - apply andb_true_iff in Hd as [Hfresh Hd].
    destruct Hin as [Heq|Hin].
    + inversion Heq; subst. now rewrite String.eqb_refl.
    + destruct (String.eqb_spec k k') as [->|_]; [|auto].
      apply prop_in_In in Hin. rewrite Hin in Hfresh. discriminate.
Qed.

Lemma handler_table_distinct (o : object) :
  handler_table o = true -> distinct_keys o = true.
Proof.
  unfold handler_table. intros H. now apply andb_true_iff in H.
Qed.

Lemma handler_table_function (o : object) (k : string) (v : val) :
  handler_table o = true -> In (k, v) o -> exists f, v = VFunction f.
Proof.
  unfold handler_table. intros H Hin.
  apply andb_true_iff in H as [_ H].
  rewrite forallb_forall in H. specialize (H _ Hin). simpl in H.
  destruct v; try discriminate. now exists f.
Qed.

Lemma handler_table_get (o : object) (k : string) :
  handler_table o = true -> prop_in k o = true ->
  exists f, get k o = VFunction f /\ In (k, VFunction f) o.
Proof.
  unfold handler_table. intros H. apply andb_true_iff in H as [_ H].
  induction o as [|[k' v'] rest IH]; simpl in *; intros Hk.
  - discriminate.
  - apply andb_true_iff in H as [Hv H].
    destruct (String.eqb_spec k k') as [->|_].
    + destruct v'; try discriminate. exists f. auto.
    + destruct (IH H Hk) as (f & Hg & Hin). exists f. auto.
Qed.

(** ** The loop and the three exits of [match] *)

Section Properties.

Variable invoke : fname -> val -> val -> world -> completion * world.

Lemma for_of_entries_hit input w d (h : val) es :
  tagged (heap w input) d -> distinct_keys es = true -> In (d, h) es ->
  for_of_entries invoke input w es =
    Some (call invoke (ForOfBody d) h VUndefined (VObject input) w).
Proof.
  unfold tagged. intros Htag.
  induction es as [|[k' v'] rest IH]; simpl; intros Hd Hin.
  - contradiction.
  - rewrite Htag. simpl.
    apply andb_true_iff in Hd as [Hfresh Hd].
    destruct Hin as [Heq|Hin].
    + inversion Heq; subst. now rewrite String.eqb_refl.
    + destruct (String.eqb_spec d k') as [->|_].
      * apply prop_in_In in Hin. rewrite Hin in Hfresh. discriminate.
      * auto.
Qed.

Lemma for_of_entries_miss input w d es :
  tagged (heap w input) d -> prop_in d es = false ->
  for_of_entries invoke input w es = None.
Proof.
  unfold tagged. intros Htag.
  induction es as [|[k' v'] rest IH]; simpl; intros Hk.
  - reflexivity.
  - rewrite Htag. simpl.
    destruct (String.eqb d k'); [discriminate|]. auto.
Qed.

(** Whatever the loop returns is one call [handler(input)] of an entry
    whose key is the discriminant. *)
Lemma for_of_entries_some input w es o :
  for_of_entries invoke input w es = Some o ->
  exists key h,
    In (key, h) es /\ get "__type" (heap w input) = VString key /\
    o = call invoke (ForOfBody key) h VUndefined (VObject input) w.
Proof.
  induction es as [|[k' v'] rest IH]; simpl; intros Ho.
  - discriminate.
  - destruct (strict_equals (get "__type" (heap w input)) (VString k')) eqn:E.
    + inversion Ho; subst. exists k', v'. split; [now left|]. split; [|reflexivity].
      destruct (get "__type" (heap w input)); simpl in E; try discriminate.
      apply String.eqb_eq in E. now subst.
    + destruct (IH Ho) as (key & h & Hin & Ht & Hc).
      exists key, h. auto.
Qed.

Lemma match_hit input matchers w d h :
  tagged (heap w input) d -> distinct_keys (heap w matchers) = true ->
  In (d, VFunction h) (heap w matchers) ->
  match_ invoke input matchers w =
    called invoke (ForOfBody d) h VUndefined input w.
Proof.
  intros Htag Hd Hin. unfold match_, entries.
  now rewrite (for_of_entries_hit _ _ _ _ _ Htag Hd Hin).
Qed.

Lemma match_default input matchers w d h :
  tagged (heap w input) d -> distinct_keys (heap w matchers) = true ->
  prop_in d (heap w matchers) = false ->
  In ("*", VFunction h) (heap w matchers) ->
  match_ invoke input matchers w =
    called invoke WildcardBranch h (VObject matchers) input w.
Proof.
  intros Htag Hd Hk Hin. unfold match_, entries.
  rewrite (for_of_entries_miss _ _ _ _ Htag Hk).
  rewrite (prop_in_In _ _ _ Hin), (get_In _ _ _ Hd Hin). reflexivity.
Qed.

Lemma match_unmatched input matchers w d :
  tagged (heap w input) d ->
  prop_in d (heap w matchers) = false ->
  prop_in "*" (heap w matchers) = false ->
  match_ invoke input matchers w =
    {| result := Throw pattern_unmatched; final := w; calls := [] |}.
Proof.
  intros Htag Hk Hstar. unfold match_, entries.
  now rewrite (for_of_entries_miss _ _ _ _ Htag Hk), Hstar.
Qed.

(** The dispatcher makes at most one call, and when it makes none it has
    thrown and left the world alone. *)
Lemma match_cases input matchers w :
  (exists s f this,
      match_ invoke input matchers w = called invoke s f this input w) \/
  (exists e, match_ invoke input matchers w =
               {| result := Throw e; final := w; calls := [] |}).
Proof.
  unfold match_.
  destruct (for_of_entries invoke input w (entries (heap w matchers)))
    as [o|] eqn:Hloop.
  - apply for_of_entries_some in Hloop as (key & h & _ & _ & ->).
    destruct h; simpl; eauto. left. now exists (ForOfBody key), f, VUndefined.
  - destruct (prop_in "*" (heap w matchers)); [|eauto].
    destruct (get "*" (heap w matchers)); simpl; eauto.
    left. now exists WildcardBranch, f, (VObject matchers).
Qed.

(** ** Properties of [match] and [matches] *)

(** C1: when the discriminant of the input is [d] and the handler table has
    an entry keyed [d], [match] completes as the call of that entry's
    handler on the input does, leaves the world that call left, and has
    made that one call and no other (the wildcard entry, if any, is not
    called). *)
Theorem match_exact_entry input matchers w d h :
  tagged (heap w input) d ->
  handler_table (heap w matchers) = true ->
  In (d, VFunction h) (heap w matchers) ->
  result (match_ invoke input matchers w) =
    fst (invoke h VUndefined (VObject input) w) /\
  final (match_ invoke input matchers w) =
    snd (invoke h VUndefined (VObject input) w) /\
  calls (match_ invoke input matchers w) =
    [mkCall (ForOfBody d) h VUndefined (VObject input)].
Proof.
  intros Htag Htab Hin.
  rewrite (match_hit _ _ _ _ _ Htag (handler_table_distinct _ Htab) Hin).
  repeat split.
Qed.

(** C2: when the discriminant [d] of the input is not a key of the handler
    table and the table has an entry under ["*"], [match] completes as the
    call of the wildcard handler on the input itself does, and that call is
    the only one made. *)
Theorem match_wildcard input matchers w d h :
  tagged (heap w input) d ->
  handler_table (heap w matchers) = true ->
  prop_in d (heap w matchers) = false ->
  In ("*", VFunction h) (heap w matchers) ->
  result (match_ invoke input matchers w) =
    fst (invoke h (VObject matchers) (VObject input) w) /\
  final (match_ invoke input matchers w) =
    snd (invoke h (VObject matchers) (VObject input) w) /\
  calls (match_ invoke input matchers w) =
    [mkCall WildcardBranch h (VObject matchers) (VObject input)].
Proof.
  intros Htag Htab Hk Hin.
  rewrite (match_default _ _ _ _ _ Htag (handler_table_distinct _ Htab) Hk Hin).
  repeat split.
Qed.

(** C4: the closure returned by [matches] applied to an input is the call
    of [match] on that input and the same table, in every world, with the
    same result, the same effect and the same calls; a series of
    applications of the closure is the series of calls of [match], each
    run in full in the world the previous one left. *)
Theorem matches_transparent matchers :
  (forall input w,
      matches invoke matchers input w = match_ invoke input matchers w) /\
  (forall inputs w,
      run_each (matches invoke matchers) inputs w =
      run_each (fun input => match_ invoke input matchers) inputs w).
Proof.
  split.
  - intros input w. unfold matches. reflexivity.
  - induction inputs as [|v rest IH]; intros w.
    + reflexivity.
    + cbn [run_each]. rewrite IH. reflexivity.
Qed.

(** C5: when the table has an entry keyed ["*"] and the discriminant of
    the input is ["*"], the loop matches that entry like any other: its
    handler is called once, by the call inside the loop (receiver
    [undefined]), and the wildcard branch is not reached.  In general
    whatever the loop returns is what [match] returns: the wildcard lookup
    comes after the loop and only when the loop found nothing. *)
Theorem match_star_is_ordinary input matchers w h :
  tagged (heap w input) "*" ->
  handler_table (heap w matchers) = true ->
  In ("*", VFunction h) (heap w matchers) ->
  match_ invoke input matchers w =
    called invoke (ForOfBody "*") h VUndefined input w /\
  calls (match_ invoke input matchers w) =
    [mkCall (ForOfBody "*") h VUndefined (VObject input)] /\
  (forall input' o,
      for_of_entries invoke input' w (entries (heap w matchers)) = Some o ->
      match_ invoke input' matchers w = o).
Proof.
  intros Htag Htab Hin.
  rewrite (match_hit _ _ _ _ _ Htag (handler_table_distinct _ Htab) Hin).
  repeat split.
  intros input' o Hloop. unfold match_. now rewrite Hloop.
Qed.

Lemma get_function_In (k : string) (f : fname) (o : object) :
  get k o = VFunction f -> In (k, VFunction f) o.
Proof.
  induction o as [|[k' v'] rest IH]; simpl; intros Hg.
  - discriminate.
  - destruct (String.eqb_spec k k') as [->|_]; [left; congruence | auto].
Qed.

Lemma call_pure s fn this arg w1 w2 :
  (forall f, fn = VFunction f -> pure_handler invoke f) ->
  same_object w1 w2 this -> same_object w1 w2 arg ->
  result (call invoke s fn this arg w1) = result (call invoke s fn this arg w2) /\
  calls (call invoke s fn this arg w1) = calls (call invoke s fn this arg w2) /\
  final (call invoke s fn this arg w1) = w1 /\
  final (call invoke s fn this arg w2) = w2.
Proof.
  intros Hp Hthis Harg.
  destruct fn; simpl; try (repeat split; reflexivity).
  destruct (Hp f eq_refl) as [Hframe Hdet]. repeat split; auto.
Qed.

Lemma for_of_entries_pure input w1 w2 es :
  heap w1 input = heap w2 input ->
  (forall k f, In (k, VFunction f) es -> pure_handler invoke f) ->
  match for_of_entries invoke input w1 es,
        for_of_entries invoke input w2 es with
  | Some o1, Some o2 =>
      result o1 = result o2 /\ calls o1 = calls o2 /\
      final o1 = w1 /\ final o2 = w2
  | None, None => True
  | _, _ => False
  end.
Proof.
  intros Hin.
  induction es as [|[k' v'] rest IH]; simpl; intros Hp.
  - exact I.
  - rewrite Hin.
    destruct (strict_equals (get "__type" (heap w2 input)) (VString k')).
    + apply call_pure; simpl; auto.
      intros f ->. apply (Hp k'). now left.
    + apply IH. intros k f Hf. apply (Hp k). now right.
Qed.

Lemma for_of_entries_same_type v1 v2 w es :
  get "__type" (heap w v1) = get "__type" (heap w v2) ->
  (for_of_entries invoke v1 w es = None /\
   for_of_entries invoke v2 w es = None) \/
  (exists key h,
      for_of_entries invoke v1 w es =
        Some (call invoke (ForOfBody key) h VUndefined (VObject v1) w) /\
      for_of_entries invoke v2 w es =
        Some (call invoke (ForOfBody key) h VUndefined (VObject v2) w)).
Proof.
  intros Hty.
  induction es as [|[k' v'] rest IH]; simpl.
  - now left.
  - rewrite Hty.
    destruct (strict_equals (get "__type" (heap w v2)) (VString k')).
    + right. now exists k', v'.
    + exact IH.
Qed.

(** C8: when no entry is keyed by the discriminant and there is no
    wildcard entry, what [match] throws is an instance of the generic
    class [Error] with the message "Pattern unmacthed" (spelled so): its
    class is not one named UnmatchedPattern and the message is not the
    correctly spelled "Pattern unmatched". *)
Theorem match_throws_generic_error input matchers w d :
  tagged (heap w input) d ->
  prop_in d (heap w matchers) = false ->
  prop_in "*" (heap w matchers) = false ->
  exists e,
    result (match_ invoke input matchers w) = Throw e /\
    e = ErrorObject "Error" "Pattern unmacthed" /\
    error_class e = Some "Error" /\
    error_class e <> Some "UnmatchedPattern" /\
    error_message e = Some "Pattern unmacthed" /\
    error_message e <> Some "Pattern unmatched".
Proof.
  intros Htag Hk Hstar. exists pattern_unmatched.
  rewrite (match_unmatched _ _ _ _ Htag Hk Hstar).
  repeat split; simpl; discriminate.
Qed.

(** C9: the choice of the handler depends on the discriminant alone: for
    two inputs with the same [__type], whatever their other fields, and
    the same table, [match] makes the same call (same call site, hence the
    same entry or the wildcard for both, same function, same receiver) or
    makes no call for either, and then fails in the same way for both. *)
Theorem selection_depends_on_discriminant v1 v2 matchers w :
  get "__type" (heap w v1) = get "__type" (heap w v2) ->
  selected (match_ invoke v1 matchers w) =
    selected (match_ invoke v2 matchers w) /\
  (calls (match_ invoke v1 matchers w) = [] ->
   match_ invoke v1 matchers w = match_ invoke v2 matchers w).
Proof.
  intros Hty. unfold match_.
  destruct (for_of_entries_same_type v1 v2 w (entries (heap w matchers)) Hty)
    as [[-> ->]|(key & h & -> & ->)].
  - destruct (prop_in "*" (heap w matchers)); [|split; reflexivity].
    destruct (get "*" (heap w matchers)); simpl; split;
      reflexivity || discriminate.
  - destruct h; simpl; split; reflexivity || discriminate.
Qed.

(** C10: when no entry is keyed by the discriminant and there is no
    wildcard entry, [match] throws having called no handler at all, and
    the world is as it was. *)
Theorem match_failure_invokes_nothing input matchers w d :
  tagged (heap w input) d ->
  prop_in d (heap w matchers) = false ->
  prop_in "*" (heap w matchers) = false ->
  result (match_ invoke input matchers w) = Throw pattern_unmatched /\
  calls (match_ invoke input matchers w) = [] /\
  final (match_ invoke input matchers w) = w.
Proof.
  intros Htag Hk Hstar.
  rewrite (match_unmatched _ _ _ _ Htag Hk Hstar). repeat split.
Qed.

End Properties.

(** ** The properties on the README's example *)

Lemma match_exact_entry_witness :
  tagged (heap demo_world hello) "text" /\
  handler_table (heap demo_world handlers) = true /\
  In ("text", VFunction log_message) (heap demo_world handlers) /\
  result (match_ demo_invoke hello handlers demo_world) = Return VUndefined /\
  console (final (match_ demo_invoke hello handlers demo_world)) = ["Hello!"] /\
  calls (match_ demo_invoke hello handlers demo_world) =
    [mkCall (ForOfBody "text") log_message VUndefined (VObject hello)].
Proof.
  assert (Ht : tagged (heap demo_world hello) "text") by reflexivity.
  assert (Hh : handler_table (heap demo_world handlers) = true) by reflexivity.
  assert (Hi : In ("text", VFunction log_message) (heap demo_world handlers))
    by (left; reflexivity).
  destruct (match_exact_entry demo_invoke hello handlers demo_world
              "text" log_message Ht Hh Hi) as (Hr & Hf & Hc).
  rewrite Hr, Hf, Hc.
  refine (conj Ht (conj Hh (conj Hi _))). repeat split.
Defined.

Lemma match_wildcard_witness :
  tagged (heap demo_world unknown) "unknown" /\
  handler_table (heap demo_world handlers_with_default) = true /\
  prop_in "unknown" (heap demo_world handlers_with_default) = false /\
  In ("*", VFunction log_unexpected) (heap demo_world handlers_with_default) /\
  result (match_ demo_invoke unknown handlers_with_default demo_world) =
    Return VUndefined /\
  console (final (match_ demo_invoke unknown handlers_with_default demo_world)) =
    ["Got an unexpected message"] /\
  calls (match_ demo_invoke unknown handlers_with_default demo_world) =
    [mkCall WildcardBranch log_unexpected (VObject handlers_with_default)
       (VObject unknown)].
Proof.
  assert (Ht : tagged (heap demo_world unknown) "unknown") by reflexivity.
  assert (Hh : handler_table (heap demo_world handlers_with_default) = true)
    by reflexivity.
  assert (Hk : prop_in "unknown" (heap demo_world handlers_with_default) = false)
    by reflexivity.
  assert (Hi : In ("*", VFunction log_unexpected)
                 (heap demo_world handlers_with_default))
    by (right; right; left; reflexivity).
  destruct (match_wildcard demo_invoke unknown handlers_with_default demo_world
              "unknown" log_unexpected Ht Hh Hk Hi) as (Hr & Hf & Hc).
  rewrite Hr, Hf, Hc.
  refine (conj Ht (conj Hh (conj Hk (conj Hi _)))). repeat split.
Defined.

Lemma match_star_is_ordinary_witness :
  tagged (heap demo_world star) "*" /\
  handler_table (heap demo_world handlers_with_default) = true /\
  In ("*", VFunction log_unexpected) (heap demo_world handlers_with_default) /\
  calls (match_ demo_invoke star handlers_with_default demo_world) =
    [mkCall (ForOfBody "*") log_unexpected VUndefined (VObject star)].
Proof.
  assert (Ht : tagged (heap demo_world star) "*") by reflexivity.
  assert (Hh : handler_table (heap demo_world handlers_with_default) = true)
    by reflexivity.
  assert (Hi : In ("*", VFunction log_unexpected)
                 (heap demo_world handlers_with_default))
    by (right; right; left; reflexivity).
  refine (conj Ht (conj Hh (conj Hi _))).
  apply (match_star_is_ordinary demo_invoke star handlers_with_default
           demo_world log_unexpected Ht Hh Hi).
Defined.

Lemma demo_pure_table : pure_table demo_invoke (heap demo_world pure_handlers).
Proof.
  intros k f [Hin|[Hin|[]]]; inversion Hin; subst; split;
    try (intros; reflexivity);
    intros this arg w1 w2 _ Harg; destruct arg; simpl in *;
      try reflexivity; now rewrite Harg.
Qed.

Lemma match_throws_generic_error_witness :
  tagged (heap demo_world unknown) "unknown" /\
  prop_in "unknown" (heap demo_world handlers) = false /\
  prop_in "*" (heap demo_world handlers) = false /\
  exists e,
    result (match_ demo_invoke unknown handlers demo_world) = Throw e /\
    error_class e = Some "Error" /\
    error_message e = Some "Pattern unmacthed".
Proof.
  assert (Ht : tagged (heap demo_world unknown) "unknown") by reflexivity.
  assert (Hk : prop_in "unknown" (heap demo_world handlers) = false)
    by reflexivity.
  assert (Hs : prop_in "*" (heap demo_world handlers) = false) by reflexivity.
  destruct (match_throws_generic_error demo_invoke unknown handlers demo_world
              "unknown" Ht Hk Hs) as (e & He & _ & Hcl & _ & Hmsg & _).
  refine (conj Ht (conj Hk (conj Hs _))). exists e. auto.
Defined.

Lemma selection_depends_on_discriminant_witness :
  get "__type" (heap demo_world hello) = get "__type" (heap demo_world bye) /\
  heap demo_world hello <> heap demo_world bye /\
  selected (match_ demo_invoke hello handlers demo_world) =
    selected (match_ demo_invoke bye handlers demo_world).
Proof.
  assert (Ht : get "__type" (heap demo_world hello) =
               get "__type" (heap demo_world bye)) by reflexivity.
  refine (conj Ht (conj _ _)).
  - discriminate.
  - apply (selection_depends_on_discriminant demo_invoke hello bye handlers
             demo_world Ht).
Defined.

Lemma match_failure_invokes_nothing_witness :
  tagged (heap demo_world unknown) "unknown" /\
  prop_in "unknown" (heap demo_world handlers) = false /\
  prop_in "*" (heap demo_world handlers) = false /\
  calls (match_ demo_invoke unknown handlers demo_world) = [] /\
  final (match_ demo_invoke unknown handlers demo_world) = demo_world.
Proof.
  assert (Ht : tagged (heap demo_world unknown) "unknown") by reflexivity.
  assert (Hk : prop_in "unknown" (heap demo_world handlers) = false)
    by reflexivity.
  assert (Hs : prop_in "*" (heap demo_world handlers) = false) by reflexivity.
  destruct (match_failure_invokes_nothing demo_invoke unknown handlers
              demo_world "unknown" Ht Hk Hs) as (_ & Hc & Hf).
  exact (conj Ht (conj Hk (conj Hs (conj Hc Hf)))).
Defined.

(** Scenario B of the specification: a binary message goes to the
    [binary] handler. *)
Example scenario_binary :
  result (match_ demo_invoke blob handlers demo_world) = Return (VNumber 10) /\
  selected (match_ demo_invoke blob handlers demo_world) =
    [(ForOfBody "binary", get_length, VUndefined)].
Proof. split; reflexivity. Qed.

(** The closure keeps no result: applied twice to the same input it runs
    the handler twice. *)
Example matches_runs_every_time :
  map (fun o => console (final o))
      (run_each (matches demo_invoke handlers) [hello; hello] demo_world) =
    [["Hello!"]; ["Hello!"; "Hello!"]].
Proof. reflexivity. Qed.

(** A throw of the handler that was called passes through [match]. *)
Example handler_throw_passes_through :
  result (match_ demo_invoke hello throwing_handlers demo_world) =
    Throw (ErrorObject "RangeError" "boom") /\
  selected (match_ demo_invoke hello throwing_handlers demo_world) =
    [(ForOfBody "text", 9%positive, VUndefined)].
Proof. split; reflexivity. Qed.

(** Outside handler tables: an entry that holds no function makes the
    call in the loop raise a [TypeError], wildcard or not. *)
Example entry_without_function :
  let w := {| heap := store handlers
                        [("text", VUndefined); ("*", VFunction log_unexpected)]
                        demo_heap;
              console := [] |} in
  handler_table (heap w handlers) = false /\
  match_ demo_invoke hello handlers w =
    {| result := Throw (ErrorObject "TypeError" "handler is not a function");
       final := w; calls := [] |}.
Proof. split; reflexivity. Qed.

(** ** Objects up to the order of their properties *)

Lemma prop_in_iff (k : string) (o : object) :
  prop_in k o = true <-> In k (map fst o).
Proof.
  induction o as [|[k' v'] rest IH]; simpl.
  - split; [discriminate | contradiction].
  - destruct (String.eqb_spec k k') as [->|Hne].
    + split; auto.
    + rewrite IH. split; [auto | intros [Heq|Hin]; [congruence | assumption]].
Qed.

Lemma distinct_keys_NoDup (o : object) :
  distinct_keys o = true <-> NoDup (map fst o).
Proof.
  induction o as [|[k v] rest IH]; simpl.
  - split; [constructor | reflexivity].
  - rewrite andb_true_iff, negb_true_iff, IH, NoDup_cons_iff.
    rewrite <- not_true_iff_false, prop_in_iff. reflexivity.
Qed.

Lemma distinct_keys_perm (o1 o2 : object) :
  Permutation o1 o2 -> distinct_keys o1 = true -> distinct_keys o2 = true.
Proof.
  intros Hp. rewrite !distinct_keys_NoDup.
  apply Permutation_NoDup. now apply Permutation_map.
Qed.

Lemma prop_in_perm (k : string) (o1 o2 : object) :
  Permutation o1 o2 -> prop_in k o1 = prop_in k o2.
Proof.
  intros Hp.
  assert (Hm : Permutation (map fst o1) (map fst o2))
    by now apply Permutation_map.
  destruct (prop_in k o1) eqn:E1, (prop_in k o2) eqn:E2; try reflexivity.
  - apply prop_in_iff in E1. apply (Permutation_in _ Hm) in E1.
    apply prop_in_iff in E1. congruence.
  - apply prop_in_iff in E2. apply (Permutation_in _ (Permutation_sym Hm)) in E2.
    apply prop_in_iff in E2. congruence.
Qed.

Lemma get_absent (k : string) (o : object) :
  prop_in k o = false -> get k o = VUndefined.
Proof.
  induction o as [|[k' v'] rest IH]; simpl; [reflexivity|].
  destruct (String.eqb k k'); [discriminate | exact IH].
Qed.

Lemma In_get (k : string) (o : object) :
  prop_in k o = true -> In (k, get k o) o.
Proof.
  induction o as [|[k' v'] rest IH]; simpl; [discriminate|].
  destruct (String.eqb_spec k k') as [->|_]; auto.
Qed.

Lemma get_perm (k : string) (o1 o2 : object) :
  Permutation o1 o2 -> distinct_keys o1 = true -> get k o1 = get k o2.
Proof.
  intros Hp Hd.
  pose proof (distinct_keys_perm _ _ Hp Hd) as Hd2.
  pose proof (prop_in_perm k _ _ Hp) as Hk.
  destruct (prop_in k o1) eqn:E1.
  - apply In_get in E1. apply (Permutation_in _ Hp) in E1.
    symmetry. now apply get_In.
  - now rewrite (get_absent _ _ E1), (get_absent k o2).
Qed.

Lemma prop_in_cons (k k' : string) (v : val) (o : object) :
  prop_in k ((k', v) :: o) = String.eqb k k' || prop_in k o.
Proof. simpl. now destruct (String.eqb k k'). Qed.

(** ** [match] as a keyed lookup *)

Section Lookup.

Variable invoke : fname -> val -> val -> world -> completion * world.

Lemma for_of_entries_lookup input w es :
  for_of_entries invoke input w es =
    match get "__type" (heap w input) with
    | VString d =>
        if prop_in d es
        then Some (call invoke (ForOfBody d) (get d es) VUndefined
                     (VObject input) w)
        else None
    | _ => None
    end.
Proof.
  induction es as [|[k' v'] rest IH]; simpl.
  - now destruct (get "__type" (heap w input)).
  - rewrite IH.
    destruct (get "__type" (heap w input)); simpl; try reflexivity.
    destruct (String.eqb_spec s k') as [->|_]; reflexivity.
Qed.

Lemma match_lookup input matchers w :
  match_ invoke input matchers w =
    match get "__type" (heap w input) with
    | VString d =>
        if prop_in d (heap w matchers)
        then call invoke (ForOfBody d) (get d (heap w matchers)) VUndefined
               (VObject input) w
        else after_loop invoke input matchers w
    | _ => after_loop invoke input matchers w
    end.
Proof.
  unfold match_, entries, after_loop. rewrite for_of_entries_lookup.
  destruct (get "__type" (heap w input)); try reflexivity.
  now destruct (prop_in s (heap w matchers)).
Qed.

Lemma call_not_a_function s fn this arg w :
  is_function fn = false -> call invoke s fn this arg w = not_a_function s w.
Proof. destruct fn; simpl; intros H; reflexivity || discriminate. Qed.

Lemma match_pure_final input matchers w :
  pure_table invoke (heap w matchers) ->
  final (match_ invoke input matchers w) = w.
Proof.
  intros Hpure. unfold match_, entries.
  pose proof (for_of_entries_pure invoke input w w _ eq_refl Hpure) as Hloop.
  destruct (for_of_entries invoke input w (heap w matchers)) as [o|].
  - apply Hloop.
  - destruct (prop_in "*" (heap w matchers)); [|reflexivity].
    apply (call_pure invoke WildcardBranch _ (VObject matchers)
             (VObject input) w w); simpl; auto.
    intros f Hf. apply (Hpure "*"). now apply get_function_In.
Qed.

(** Two tables that agree on the property named by the discriminant and
    on ["*"] are dispatched alike. *)
Lemma match_agree input H1 H2 w :
  (forall k, get "__type" (heap w input) = VString k \/ k = "*" ->
     prop_in k (heap w H1) = prop_in k (heap w H2) /\
     get k (heap w H1) = get k (heap w H2)) ->
  dispatched (match_ invoke input H1 w) =
    dispatched (match_ invoke input H2 w) /\
  ((forall c, In c (calls (match_ invoke input H1 w)) ->
              call_site c <> WildcardBranch) ->
   match_ invoke input H1 w = match_ invoke input H2 w).
Proof.
  intros Hsame. rewrite !match_lookup.
  assert (Hafter :
    dispatched (after_loop invoke input H1 w) =
      dispatched (after_loop invoke input H2 w) /\
    ((forall c, In c (calls (after_loop invoke input H1 w)) ->
                call_site c <> WildcardBranch) ->
     after_loop invoke input H1 w = after_loop invoke input H2 w)).
  { unfold after_loop.
    destruct (Hsame "*" (or_intror eq_refl)) as [<- <-].
    destruct (prop_in "*" (heap w H1)); [|split; reflexivity].
    destruct (get "*" (heap w H1)); simpl; split; try reflexivity.
    intros Hc. exfalso. apply (Hc _ (or_introl eq_refl)). reflexivity. }
  destruct (get "__type" (heap w input)); try exact Hafter.
  destruct (Hsame s (or_introl eq_refl)) as [<- <-].
  destruct (prop_in s (heap w H1)); [split; reflexivity | exact Hafter].
Qed.

(** ** Further properties of [match] and [matches] *)

(** X2: an input whose [__type] is missing or is not a string matches no
    entry, since [===] converts nothing: it goes to the wildcard handler
    if there is one and raises the unmatched-pattern error otherwise. *)
Theorem match_untagged input matchers w :
  (forall s, get "__type" (heap w input) <> VString s) ->
  match_ invoke input matchers w =
    if prop_in "*" (heap w matchers)
    then call invoke WildcardBranch (get "*" (heap w matchers))
           (VObject matchers) (VObject input) w
    else {| result := Throw pattern_unmatched; final := w; calls := [] |}.
Proof.
  intros Hno. rewrite match_lookup.
  destruct (get "__type" (heap w input)) eqn:E; try reflexivity.
  now destruct (Hno s).
Qed.

(** X3: an entry keyed by the discriminant that holds no function makes
    [match] raise a [TypeError] without calling anything; a wildcard entry
    in the same table is not used instead. *)
Theorem match_entry_not_callable input matchers w d v :
  tagged (heap w input) d ->
  distinct_keys (heap w matchers) = true ->
  In (d, v) (heap w matchers) ->
  is_function v = false ->
  match_ invoke input matchers w =
    {| result := Throw (ErrorObject "TypeError" "handler is not a function");
       final := w; calls := [] |}.
Proof.
  unfold tagged. intros Htag Hd Hin Hv.
  rewrite match_lookup, Htag, (prop_in_In _ _ _ Hin), (get_In _ _ _ Hd Hin).
  now apply call_not_a_function.
Qed.

(** X4: the order in which a table lists its entries does not matter: two
    tables with the same entries give the same call (same call site, same
    function, same argument), and the same outcome altogether unless the
    call is the one of the wildcard branch, whose receiver is the table. *)
Theorem match_order_irrelevant input H1 H2 w :
  Permutation (heap w H1) (heap w H2) ->
  distinct_keys (heap w H1) = true ->
  dispatched (match_ invoke input H1 w) =
    dispatched (match_ invoke input H2 w) /\
  ((forall c, In c (calls (match_ invoke input H1 w)) ->
              call_site c <> WildcardBranch) ->
   match_ invoke input H1 w = match_ invoke input H2 w).
Proof.
  intros Hp Hd. apply match_agree. intros k _. split.
  - now apply prop_in_perm.
  - now apply get_perm.
Qed.

(** X7: with pure handlers a matcher built once by [matches] and applied
    to a series of inputs gives, for each input, the outcome of [match] on
    it in the initial world: what came before in the series has no
    influence. *)
Theorem matches_pure_series matchers inputs w :
  pure_table invoke (heap w matchers) ->
  run_each (matches invoke matchers) inputs w =
    map (fun input => match_ invoke input matchers w) inputs.
Proof.
  intros Hpure. induction inputs as [|v rest IH].
  - reflexivity.
  - cbn [run_each map].
    change (matches invoke matchers v w) with (match_ invoke v matchers w).
    rewrite (match_pure_final _ _ _ Hpure), IH. reflexivity.
Qed.

(** X8: adding a wildcard entry to a table, at any place among its
    entries, changes nothing for the inputs the table had an entry for,
    and for the others turns the unmatched-pattern error into the call of
    the wildcard handler. *)
Theorem wildcard_only_catches_unmatched input H1 H2 w d g :
  tagged (heap w input) d ->
  d <> "*" ->
  distinct_keys (heap w H1) = true ->
  prop_in "*" (heap w H1) = false ->
  Permutation (heap w H2) (("*", VFunction g) :: heap w H1) ->
  (prop_in d (heap w H1) = true ->
   match_ invoke input H2 w = match_ invoke input H1 w) /\
  (prop_in d (heap w H1) = false ->
   match_ invoke input H1 w =
     {| result := Throw pattern_unmatched; final := w; calls := [] |} /\
   match_ invoke input H2 w =
     called invoke WildcardBranch g (VObject H2) input w).
Proof.
  unfold tagged. intros Htag Hne Hd Hstar Hp.
  assert (Hd' : distinct_keys (("*", VFunction g) :: heap w H1) = true)
    by (simpl; now rewrite Hstar, Hd).
  apply Permutation_sym in Hp.
  assert (Hk : prop_in d (heap w H2) = prop_in d (heap w H1)).
  { rewrite <- (prop_in_perm d _ _ Hp), prop_in_cons.
    now destruct (String.eqb_spec d "*"). }
  assert (Hg : get d (heap w H2) = get d (heap w H1)).
  { rewrite <- (get_perm d _ _ Hp Hd'). simpl.
    now destruct (String.eqb_spec d "*"). }
  rewrite !match_lookup, Htag, Hk, Hg. unfold after_loop.
  rewrite <- (prop_in_perm "*" _ _ Hp), <- (get_perm "*" _ _ Hp Hd'), Hstar.
  split; intros ->; [reflexivity|]. split; reflexivity.
Qed.

(** X9: an entry for another variant does not interfere: a table with one
    more entry, under a name that is neither the discriminant of the input
    nor ["*"], gives the same call, and the same outcome altogether unless
    the call is the one of the wildcard branch, whose receiver is the
    table. *)
Theorem other_variant_entry_irrelevant input H1 H2 w d k fn :
  tagged (heap w input) d ->
  d <> k ->
  k <> "*" ->
  distinct_keys (heap w H1) = true ->
  prop_in k (heap w H1) = false ->
  Permutation (heap w H2) ((k, fn) :: heap w H1) ->
  dispatched (match_ invoke input H1 w) =
    dispatched (match_ invoke input H2 w) /\
  ((forall c, In c (calls (match_ invoke input H1 w)) ->
              call_site c <> WildcardBranch) ->
   match_ invoke input H1 w = match_ invoke input H2 w).
Proof.
  unfold tagged. intros Htag Hdk Hks Hd Hfresh Hp.
  assert (Hd' : distinct_keys ((k, fn) :: heap w H1) = true)
    by (simpl; now rewrite Hfresh, Hd).
  apply Permutation_sym in Hp.
  apply match_agree. intros k' Hk'.
  assert (Hne : k' <> k).
  { destruct Hk' as [Hk'| ->]; [|congruence].
    rewrite Htag in Hk'. inversion Hk'. congruence. }
  rewrite <- (prop_in_perm k' _ _ Hp), <- (get_perm k' _ _ Hp Hd'), prop_in_cons.
  simpl. destruct (String.eqb_spec k' k); [contradiction|]. split; reflexivity.
Qed.

(** X10: a handler is only ever given what its parameter type says: a
    call made inside the loop is the call of the function of an entry
    whose key is the [__type] of the input (the [Narrow<Unity, Key>] of
    [Matches]); the only other call is the one of the function under
    ["*"], made when no key of the table is the [__type] of the input. *)
Theorem handler_called_on_own_variant input matchers w c :
  In c (calls (match_ invoke input matchers w)) ->
  (exists key,
      call_site c = ForOfBody key /\
      tagged (heap w input) key /\
      In (key, VFunction (callee c)) (heap w matchers)) \/
  (call_site c = WildcardBranch /\
   In ("*", VFunction (callee c)) (heap w matchers) /\
   forall key, tagged (heap w input) key ->
               prop_in key (heap w matchers) = false).
Proof.
  unfold tagged. rewrite match_lookup.
  assert (Hafter :
    (forall key, get "__type" (heap w input) = VString key ->
                 prop_in key (heap w matchers) = false) ->
    In c (calls (after_loop invoke input matchers w)) ->
    (exists key,
        call_site c = ForOfBody key /\
        get "__type" (heap w input) = VString key /\
        In (key, VFunction (callee c)) (heap w matchers)) \/
    (call_site c = WildcardBranch /\
     In ("*", VFunction (callee c)) (heap w matchers) /\
     forall key, get "__type" (heap w input) = VString key ->
                 prop_in key (heap w matchers) = false)).
  { intros Hmiss. unfold after_loop.
    destruct (prop_in "*" (heap w matchers)); [|contradiction].
    destruct (get "*" (heap w matchers)) eqn:Hg; try contradiction.
    intros [<-|[]]. right. simpl. split; [reflexivity|].
    split; [now apply get_function_In | exact Hmiss]. }
  destruct (get "__type" (heap w input)) eqn:Hty;
    try (apply Hafter; intros key Hkey; discriminate).
  destruct (prop_in s (heap w matchers)) eqn:Hk.
  - destruct (get s (heap w matchers)) eqn:Hg; try contradiction.
    intros [<-|[]]. left. exists s. simpl. split; [reflexivity|].
    split; [reflexivity | now apply get_function_In].
  - apply Hafter. intros key Hkey. inversion Hkey; subst. exact Hk.
Qed.

End Lookup.

(** ** The further properties on concrete inputs *)

Lemma match_untagged_witness :
  (forall s, get "__type" (heap edge_world numbered) <> VString s) /\
  prop_in "1" (heap edge_world numbered_handlers) = true /\
  match_ demo_invoke numbered numbered_handlers edge_world =
    {| result := Throw pattern_unmatched; final := edge_world; calls := [] |}.
Proof.
  assert (Hn : forall s, get "__type" (heap edge_world numbered) <> VString s)
    by (intros s; discriminate).
  refine (conj Hn (conj eq_refl _)).
  exact (match_untagged demo_invoke numbered numbered_handlers edge_world Hn).
Defined.

Lemma match_entry_not_callable_witness :
  tagged (heap edge_world hello) "text" /\
  distinct_keys (heap edge_world partial_handlers) = true /\
  In ("text", VUndefined) (heap edge_world partial_handlers) /\
  prop_in "*" (heap edge_world partial_handlers) = true /\
  match_ demo_invoke hello partial_handlers edge_world =
    {| result := Throw (ErrorObject "TypeError" "handler is not a function");
       final := edge_world; calls := [] |}.
Proof.
  assert (Ht : tagged (heap edge_world hello) "text") by reflexivity.
  assert (Hd : distinct_keys (heap edge_world partial_handlers) = true)
    by reflexivity.
  assert (Hi : In ("text", VUndefined) (heap edge_world partial_handlers))
    by (right; left; reflexivity).
  refine (conj Ht (conj Hd (conj Hi (conj eq_refl _)))).
  exact (match_entry_not_callable demo_invoke hello partial_handlers edge_world
           "text" VUndefined Ht Hd Hi eq_refl).
Defined.

Lemma match_order_irrelevant_witness :
  Permutation (heap edge_world handlers) (heap edge_world reordered_handlers) /\
  heap edge_world handlers <> heap edge_world reordered_handlers /\
  distinct_keys (heap edge_world handlers) = true /\
  dispatched (match_ demo_invoke hello handlers edge_world) =
    dispatched (match_ demo_invoke hello reordered_handlers edge_world).
Proof.
  assert (Hp : Permutation (heap edge_world handlers)
                 (heap edge_world reordered_handlers))
    by exact (perm_swap _ _ _).
  assert (Hd : distinct_keys (heap edge_world handlers) = true) by reflexivity.
  refine (conj Hp (conj _ (conj Hd _))).
  - discriminate.
  - exact (proj1 (match_order_irrelevant demo_invoke hello handlers
                    reordered_handlers edge_world Hp Hd)).
Defined.

Lemma matches_pure_series_witness :
  pure_table demo_invoke (heap demo_world pure_handlers) /\
  map result
    (run_each (matches demo_invoke pure_handlers) [hello; blob; bye] demo_world) =
  map result
    (map (fun input => match_ demo_invoke input pure_handlers demo_world)
       [hello; blob; bye]).
Proof.
  refine (conj demo_pure_table _).
  rewrite (matches_pure_series demo_invoke pure_handlers [hello; blob; bye]
             demo_world demo_pure_table).
  reflexivity.
Defined.

Lemma wildcard_only_catches_unmatched_witness :
  tagged (heap demo_world unknown) "unknown" /\
  "unknown" <> "*" /\
  distinct_keys (heap demo_world handlers) = true /\
  prop_in "*" (heap demo_world handlers) = false /\
  Permutation (heap demo_world handlers_with_default)
    (("*", VFunction log_unexpected) :: heap demo_world handlers) /\
  match_ demo_invoke unknown handlers_with_default demo_world =
    called demo_invoke WildcardBranch log_unexpected
      (VObject handlers_with_default) unknown demo_world.
Proof.
  assert (Ht : tagged (heap demo_world unknown) "unknown") by reflexivity.
  assert (Hn : "unknown" <> "*") by discriminate.
  assert (Hd : distinct_keys (heap demo_world handlers) = true) by reflexivity.
  assert (Hs : prop_in "*" (heap demo_world handlers) = false) by reflexivity.
  assert (Hp : Permutation (heap demo_world handlers_with_default)
                 (("*", VFunction log_unexpected) :: heap demo_world handlers))
    by exact (Permutation_sym
                (Permutation_cons_append (heap demo_world handlers)
                   ("*", VFunction log_unexpected))).
  refine (conj Ht (conj Hn (conj Hd (conj Hs (conj Hp _))))).
  exact (proj2 (proj2 (wildcard_only_catches_unmatched demo_invoke unknown
                         handlers handlers_with_default demo_world "unknown"
                         log_unexpected Ht Hn Hd Hs Hp) eq_refl)).
Defined.

Lemma other_variant_entry_irrelevant_witness :
  tagged (heap edge_world hello) "text" /\
  "text" <> "unknown" /\
  "unknown" <> "*" /\
  distinct_keys (heap edge_world handlers) = true /\
  prop_in "unknown" (heap edge_world handlers) = false /\
  Permutation (heap edge_world more_handlers)
    (("unknown", VFunction get_message) :: heap edge_world handlers) /\
  match_ demo_invoke hello handlers edge_world =
    match_ demo_invoke hello more_handlers edge_world.
Proof.
  assert (Ht : tagged (heap edge_world hello) "text") by reflexivity.
  assert (Hn : "text" <> "unknown") by discriminate.
  assert (Hk : "unknown" <> "*") by discriminate.
  assert (Hd : distinct_keys (heap edge_world handlers) = true) by reflexivity.
  assert (Hf : prop_in "unknown" (heap edge_world handlers) = false)
    by reflexivity.
  assert (Hp : Permutation (heap edge_world more_handlers)
                 (("unknown", VFunction get_message)
                    :: heap edge_world handlers))
    by exact (Permutation_sym
                (Permutation_cons_append (heap edge_world handlers)
                   ("unknown", VFunction get_message))).
  refine (conj Ht (conj Hn (conj Hk (conj Hd (conj Hf (conj Hp _)))))).
  apply (proj2 (other_variant_entry_irrelevant demo_invoke hello handlers
                  more_handlers edge_world "text" "unknown"
                  (VFunction get_message) Ht Hn Hk Hd Hf Hp)).
  intros c [<-|[]]. discriminate.
Defined.

Lemma handler_called_on_own_variant_witness :
  In (mkCall (ForOfBody "binary") get_length VUndefined (VObject blob))
     (calls (match_ demo_invoke blob handlers demo_world)) /\
  tagged (heap demo_world blob) "binary" /\
  In ("binary", VFunction get_length) (heap demo_world handlers).
Proof.
  assert (Hc : In (mkCall (ForOfBody "binary") get_length VUndefined
                     (VObject blob))
                  (calls (match_ demo_invoke blob handlers demo_world)))
    by (left; reflexivity).
  refine (conj Hc _).
  destruct (handler_called_on_own_variant demo_invoke blob handlers demo_world
              _ Hc) as [(key & Hs & Ht & Hi)|(Hs & _)].
  - simpl in Hs. inversion Hs; subst key. exact (conj Ht Hi).
  - discriminate.
Defined.

(** ** The failures of [match] and the call it makes *)

Section Failures.

Variable invoke : fname -> val -> val -> world -> completion * world.

(** The three ways [match] ends: the call of the function of an entry
    keyed by the discriminant, the call of the function under ["*"], or a
    throw of its own with nothing called. *)
Lemma match_outcome_cases input matchers w :
  (exists key f,
      tagged (heap w input) key /\
      In (key, VFunction f) (heap w matchers) /\
      match_ invoke input matchers w =
        called invoke (ForOfBody key) f VUndefined input w) \/
  (exists f,
      In ("*", VFunction f) (heap w matchers) /\
      match_ invoke input matchers w =
        called invoke WildcardBranch f (VObject matchers) input w) \/
  (exists e,
      match_ invoke input matchers w =
        {| result := Throw e; final := w; calls := [] |}).
Proof.
  unfold tagged. rewrite match_lookup.
  assert (Hafter :
    (exists f,
        In ("*", VFunction f) (heap w matchers) /\
        after_loop invoke input matchers w =
          called invoke WildcardBranch f (VObject matchers) input w) \/
    (exists e,
        after_loop invoke input matchers w =
          {| result := Throw e; final := w; calls := [] |})).
  { unfold after_loop. destruct (prop_in "*" (heap w matchers)); [|eauto].
    destruct (get "*" (heap w matchers)) eqn:Hg; simpl; eauto.
    left. exists f. split; [now apply get_function_In | reflexivity]. }
  destruct (get "__type" (heap w input)) eqn:Hty; try (right; exact Hafter).
  destruct (prop_in s (heap w matchers)); [|right; exact Hafter].
  destruct (get s (heap w matchers)) eqn:Hg; simpl; eauto.
  left. exists s, f. split; [reflexivity|].
  split; [now apply get_function_In | reflexivity].
Qed.

(** C3: when the discriminant is not a key of the table and
    the table has no wildcard entry, [match] throws the unmatched-pattern
    error.  The dispatcher raises one other error of its own: a
    [TypeError], with nothing called, when the entry it has selected (the
    one keyed by the discriminant, or the one under ["*"] when no key is
    the discriminant) holds something that is not a function.  Every
    other throw of [match] is the throw of the one handler it called.  On
    a handler table, whose entries all hold functions, the [TypeError]
    does not occur. *)
Theorem match_failure_modes input matchers w d :
  tagged (heap w input) d ->
  (prop_in d (heap w matchers) = false ->
   prop_in "*" (heap w matchers) = false ->
   result (match_ invoke input matchers w) = Throw pattern_unmatched) /\
  (forall e, result (match_ invoke input matchers w) = Throw e ->
     (prop_in d (heap w matchers) = false /\
      prop_in "*" (heap w matchers) = false /\
      e = pattern_unmatched /\
      calls (match_ invoke input matchers w) = []) \/
     (exists s,
        e = ErrorObject "TypeError" (not_callable_message s) /\
        calls (match_ invoke input matchers w) = [] /\
        ((s = ForOfBody d /\
          prop_in d (heap w matchers) = true /\
          is_function (get d (heap w matchers)) = false) \/
         (s = WildcardBranch /\
          prop_in d (heap w matchers) = false /\
          prop_in "*" (heap w matchers) = true /\
          is_function (get "*" (heap w matchers)) = false))) \/
     (exists s f this,
        calls (match_ invoke input matchers w) =
          [mkCall s f this (VObject input)] /\
        fst (invoke f this (VObject input) w) = Throw e)) /\
  (handler_table (heap w matchers) = true ->
   forall e, result (match_ invoke input matchers w) = Throw e ->
     (prop_in d (heap w matchers) = false /\
      prop_in "*" (heap w matchers) = false /\
      e = pattern_unmatched /\
      calls (match_ invoke input matchers w) = []) \/
     (exists s f this,
        calls (match_ invoke input matchers w) =
          [mkCall s f this (VObject input)] /\
        fst (invoke f this (VObject input) w) = Throw e)).
Proof.
  intros Htag.
  assert (Hmodes : forall e,
    result (match_ invoke input matchers w) = Throw e ->
     (prop_in d (heap w matchers) = false /\
      prop_in "*" (heap w matchers) = false /\
      e = pattern_unmatched /\
      calls (match_ invoke input matchers w) = []) \/
     (exists s,
        e = ErrorObject "TypeError" (not_callable_message s) /\
        calls (match_ invoke input matchers w) = [] /\
        ((s = ForOfBody d /\
          prop_in d (heap w matchers) = true /\
          is_function (get d (heap w matchers)) = false) \/
         (s = WildcardBranch /\
          prop_in d (heap w matchers) = false /\
          prop_in "*" (heap w matchers) = true /\
          is_function (get "*" (heap w matchers)) = false))) \/
     (exists s f this,
        calls (match_ invoke input matchers w) =
          [mkCall s f this (VObject input)] /\
        fst (invoke f this (VObject input) w) = Throw e)).
  { intros e. rewrite match_lookup. unfold tagged in Htag. rewrite Htag.
    unfold after_loop.
    destruct (prop_in d (heap w matchers)) eqn:Hk.
    - destruct (is_function (get d (heap w matchers))) eqn:Hf.
      + destruct (get d (heap w matchers)); try discriminate. simpl.
        intros He. right; right. now exists (ForOfBody d), f, VUndefined.
      + rewrite (call_not_a_function invoke _ _ _ _ _ Hf). simpl.
        intros He. injection He as <-. right; left. exists (ForOfBody d).
        split; [reflexivity|]. split; [reflexivity|]. left. auto.
    - destruct (prop_in "*" (heap w matchers)) eqn:Hstar.
      + destruct (is_function (get "*" (heap w matchers))) eqn:Hf.
        * destruct (get "*" (heap w matchers)); try discriminate. simpl.
          intros He. right; right.
          now exists WildcardBranch, f, (VObject matchers).
        * rewrite (call_not_a_function invoke _ _ _ _ _ Hf). simpl.
          intros He. injection He as <-. right; left. exists WildcardBranch.
          split; [reflexivity|]. split; [reflexivity|]. right. auto.
      + simpl. intros He. injection He as <-. left. auto. }
  split; [|split].
  - intros Hk Hstar. now rewrite (match_unmatched _ _ _ _ _ Htag Hk Hstar).
  - exact Hmodes.
  - intros Htab e He.
    destruct (Hmodes e He) as [H|[(s & _ & _ & Hbad)|H]]; [now left| |now right].
    exfalso.
    destruct Hbad as [(_ & Hk & Hf)|(_ & _ & Hk & Hf)];
      destruct (handler_table_get _ _ Htab Hk) as (f & Hg & _);
      rewrite Hg in Hf; discriminate.
Qed.

(** C6: whenever [match] returns a value, the dispatcher has called one
    function, once, on the input; that function is a handler of the
    table, the one of the entry keyed by the discriminant (called in the
    loop, receiver [undefined]) or the one of the entry under ["*"]
    (receiver the table); and the world it leaves is the world that call
    left when started in the initial world: the dispatcher itself writes
    nothing, so every object that the handler left as it was (the input
    and the table among them) is as it was before the call of [match]. *)
Theorem match_single_call_and_frame input matchers w r :
  result (match_ invoke input matchers w) = Return r ->
  exists s f this,
    ((exists key,
         s = ForOfBody key /\ this = VUndefined /\
         tagged (heap w input) key /\
         In (key, VFunction f) (heap w matchers)) \/
     (s = WildcardBranch /\ this = VObject matchers /\
      In ("*", VFunction f) (heap w matchers))) /\
    calls (match_ invoke input matchers w) =
      [mkCall s f this (VObject input)] /\
    fst (invoke f this (VObject input) w) = Return r /\
    final (match_ invoke input matchers w) =
      snd (invoke f this (VObject input) w) /\
    (forall l,
        heap (snd (invoke f this (VObject input) w)) l = heap w l ->
        heap (final (match_ invoke input matchers w)) l = heap w l).
Proof.
  intros Hr.
  destruct (match_outcome_cases input matchers w)
    as [(key & f & Htag & Hin & E)|[(f & Hin & E)|(e & E)]];
    rewrite E in *; simpl in *.
  - exists (ForOfBody key), f, VUndefined. split; [left; exists key|]; auto.
  - exists WildcardBranch, f, (VObject matchers). split; [right|]; auto.
  - discriminate.
Qed.

End Failures.

Lemma match_failure_modes_witness :
  tagged (heap demo_world unknown) "unknown" /\
  result (match_ demo_invoke unknown handlers demo_world) =
    Throw (ErrorObject "Error" "Pattern unmacthed").
Proof.
  assert (Ht : tagged (heap demo_world unknown) "unknown") by reflexivity.
  refine (conj Ht _).
  apply (proj1 (match_failure_modes demo_invoke unknown handlers
                  demo_world "unknown" Ht)); reflexivity.
Defined.

(** The table [{ "*": ..., text: undefined }], which the parameter type of
    [match] admits, and a [text] input: [match] fails, the error is not
    the unmatched-pattern one, and no handler was called, so it is not a
    handler's throw either. *)
Lemma match_type_error_is_a_failure_mode :
  tagged (heap edge_world hello) "text" /\
  literal_ExhausiveMatches ["text"; "binary"]
    (heap edge_world partial_handlers) = true /\
  result (match_ demo_invoke hello partial_handlers edge_world) =
    Throw (ErrorObject "TypeError" "handler is not a function") /\
  result (match_ demo_invoke hello partial_handlers edge_world) <>
    Throw pattern_unmatched /\
  calls (match_ demo_invoke hello partial_handlers edge_world) = [].
Proof.
  repeat split; try reflexivity. discriminate.
Qed.

Lemma match_single_call_and_frame_witness :
  result (match_ demo_invoke blob handlers demo_world) = Return (VNumber 10) /\
  exists s f this,
    ((exists key,
         s = ForOfBody key /\ this = VUndefined /\
         tagged (heap demo_world blob) key /\
         In (key, VFunction f) (heap demo_world handlers)) \/
     (s = WildcardBranch /\ this = VObject handlers /\
      In ("*", VFunction f) (heap demo_world handlers))) /\
    calls (match_ demo_invoke blob handlers demo_world) =
      [mkCall s f this (VObject blob)] /\
    fst (demo_invoke f this (VObject blob) demo_world) = Return (VNumber 10) /\
    final (match_ demo_invoke blob handlers demo_world) =
      snd (demo_invoke f this (VObject blob) demo_world) /\
    (forall l,
        heap (snd (demo_invoke f this (VObject blob) demo_world)) l =
          heap demo_world l ->
        heap (final (match_ demo_invoke blob handlers demo_world)) l =
          heap demo_world l).
Proof.
  assert (Hr : result (match_ demo_invoke blob handlers demo_world) =
                 Return (VNumber 10)) by reflexivity.
  split; [exact Hr|].
  exact (match_single_call_and_frame demo_invoke blob handlers demo_world
           (VNumber 10) Hr).
Defined.

(** ** Property lookups on objects in full *)

Lemma prop_in_app (k : string) (a b : object) :
  prop_in k (a ++ b)%list = prop_in k a || prop_in k b.
Proof.
  induction a as [|[k' v'] rest IH]; simpl; [reflexivity|].
  now destruct (String.eqb k k').
Qed.

Lemma get_app (k : string) (a b : object) :
  get k (a ++ b)%list = if prop_in k a then get k a else get k b.
Proof.
  induction a as [|[k' v'] rest IH]; simpl; [reflexivity|].
  now destruct (String.eqb k k').
Qed.

Lemma read_from_absent (R : realm) (k : string) (ls : list loc) :
  (forall l, In l ls -> prop_in k (own_properties R l) = false) ->
  read_from R k ls = VUndefined /\
  existsb (fun l => prop_in k (own_properties R l)) ls = false.
Proof.
  induction ls as [|l rest IH]; simpl; intros Hno; [now split|].
  rewrite (Hno l (or_introl eq_refl)). simpl. apply IH. auto.
Qed.

(** An own enumerable property is what a read finds first. *)
Lemma read_own_enumerable (R : realm) (l : loc) (k : string) :
  prop_in k (heap (plain R) l) = true ->
  read R l k = get k (heap (plain R) l) /\ has_property R l k = true.
Proof.
  intros Hk. unfold read, has_property. simpl. unfold own_properties.
  now rewrite !prop_in_app, get_app, Hk.
Qed.

Lemma read_plain (R : realm) (l : loc) (k : string) :
  plain_at R l k ->
  read R l k = get k (heap (plain R) l) /\
  has_property R l k = prop_in k (heap (plain R) l).
Proof.
  intros [Hh Hc]. destruct (read_from_absent R k (chain R l) Hc) as [Hr He].
  unfold read, has_property. simpl. rewrite Hr, He. unfold own_properties.
  rewrite !prop_in_app, get_app, Hh, !orb_false_r.
  destruct (prop_in k (heap (plain R) l)) eqn:Hk; [now split|].
  now rewrite (get_absent _ _ Hk).
Qed.

Lemma read_from_same (R1 R2 : realm) (k : string) (ls : list loc) :
  (forall l, In l ls -> own_properties R1 l = own_properties R2 l) ->
  read_from R1 k ls = read_from R2 k ls /\
  existsb (fun l => prop_in k (own_properties R1 l)) ls =
    existsb (fun l => prop_in k (own_properties R2 l)) ls.
Proof.
  induction ls as [|l rest IH]; simpl; intros Hs; [now split|].
  rewrite (Hs l (or_introl eq_refl)).
  destruct (IH (fun l' Hl => Hs l' (or_intror Hl))) as [-> ->]. now split.
Qed.

Lemma read_same_view (R1 R2 : realm) (l : loc) (k : string) :
  same_view R1 R2 l ->
  read R1 l k = read R2 l k /\ has_property R1 l k = has_property R2 l k.
Proof.
  intros [Hc Hs]. unfold read, has_property. rewrite <- Hc.
  apply read_from_same. intros l' Hl. unfold own_properties.
  destruct (Hs l' Hl) as [-> ->]. reflexivity.
Qed.

Lemma same_view_own (R1 R2 : realm) (l : loc) :
  same_view R1 R2 l -> heap (plain R1) l = heap (plain R2) l.
Proof. intros [_ Hs]. apply (Hs l). now left. Qed.

(** ** [match] on objects in full *)

Section Full.

Variable invoke : fname -> val -> val -> realm -> completion * realm.

Lemma for_of_entries_full_lookup input R es :
  for_of_entries_full invoke input R es =
    match read R input "__type" with
    | VString d =>
        if prop_in d es
        then Some (call_full invoke (ForOfBody d) (get d es) VUndefined
                     (VObject input) R)
        else None
    | _ => None
    end.
Proof.
  induction es as [|[k' v'] rest IH]; simpl.
  - now destruct (read R input "__type").
  - rewrite IH.
    destruct (read R input "__type"); simpl; try reflexivity.
    destruct (String.eqb_spec s k') as [->|_]; reflexivity.
Qed.

Lemma match_full_lookup input matchers R :
  match_full invoke input matchers R =
    match read R input "__type" with
    | VString d =>
        if prop_in d (heap (plain R) matchers)
        then call_full invoke (ForOfBody d) (get d (heap (plain R) matchers))
               VUndefined (VObject input) R
        else after_loop_full invoke input matchers R
    | _ => after_loop_full invoke input matchers R
    end.
Proof.
  unfold match_full, entries. rewrite for_of_entries_full_lookup.
  destruct (read R input "__type"); try reflexivity.
  now destruct (prop_in s (heap (plain R) matchers)).
Qed.

Lemma call_full_plain (inv : fname -> val -> val -> world -> completion * world)
    s fn this arg R :
  made (call_full invoke s fn this arg R) =
    calls (call inv s fn this arg (plain R)) /\
  (made (call_full invoke s fn this arg R) = [] ->
   completed (call_full invoke s fn this arg R) =
     result (call inv s fn this arg (plain R)) /\
   realm_after (call_full invoke s fn this arg R) = R).
Proof.
  destruct fn; simpl; split; try reflexivity; try (intros _; now split).
  discriminate.
Qed.

(** On plain objects, where nothing hidden or inherited is called
    [__type] at the input or ["*"] at the table, [match_full] makes the
    call that [match_] makes on the own enumerable properties, and fails
    as it does when it makes none. *)
Lemma match_full_on_plain_objects
    (inv : fname -> val -> val -> world -> completion * world)
    input matchers R :
  plain_at R input "__type" ->
  plain_at R matchers "*" ->
  made (match_full invoke input matchers R) =
    calls (match_ inv input matchers (plain R)) /\
  (made (match_full invoke input matchers R) = [] ->
   completed (match_full invoke input matchers R) =
     result (match_ inv input matchers (plain R)) /\
   realm_after (match_full invoke input matchers R) = R).
Proof.
  intros Hin Htab. rewrite match_full_lookup, match_lookup.
  destruct (read_plain _ _ _ Hin) as [-> _].
  assert (Hafter :
    made (after_loop_full invoke input matchers R) =
      calls (after_loop inv input matchers (plain R)) /\
    (made (after_loop_full invoke input matchers R) = [] ->
     completed (after_loop_full invoke input matchers R) =
       result (after_loop inv input matchers (plain R)) /\
     realm_after (after_loop_full invoke input matchers R) = R)).
  { unfold after_loop_full, after_loop.
    destruct (read_plain _ _ _ Htab) as [-> ->].
    destruct (prop_in "*" (heap (plain R) matchers)).
    - apply call_full_plain.
    - simpl. split; [reflexivity|]. intros _. now split. }
  destruct (get "__type" (heap (plain R) input)); try exact Hafter.
  destruct (prop_in s (heap (plain R) matchers)); [|exact Hafter].
  apply call_full_plain.
Qed.

Lemma call_full_pure s fn this arg R1 R2 :
  (forall f, fn = VFunction f -> pure_handler_full invoke f) ->
  same_view_of R1 R2 this -> same_view_of R1 R2 arg ->
  made (call_full invoke s fn this arg R1) =
    made (call_full invoke s fn this arg R2) /\
  completed (call_full invoke s fn this arg R1) =
    completed (call_full invoke s fn this arg R2) /\
  realm_after (call_full invoke s fn this arg R1) = R1 /\
  realm_after (call_full invoke s fn this arg R2) = R2.
Proof.
  intros Hp Hthis Harg.
  destruct fn; simpl; try (repeat split; reflexivity).
  destruct (Hp f eq_refl) as [Hframe Hdet]. repeat split; auto.
Qed.

(** C7: [match] reads its two arguments and the objects on
    their prototype chains, and nothing else: in two realms that show the
    same input and the same table (own properties, enumerable or not, and
    the objects of the prototype chain), whatever else differs, it selects
    the same handler and, the handlers being pure, completes with the same
    result and leaves each realm as it was; so a second run after the
    first gives the same outcome again. *)
Theorem match_reads_arguments_and_prototypes input matchers R1 R2 :
  same_view R1 R2 input ->
  same_view R1 R2 matchers ->
  pure_table_full invoke R1 matchers ->
  made (match_full invoke input matchers R1) =
    made (match_full invoke input matchers R2) /\
  completed (match_full invoke input matchers R1) =
    completed (match_full invoke input matchers R2) /\
  realm_after (match_full invoke input matchers R1) = R1 /\
  realm_after (match_full invoke input matchers R2) = R2 /\
  match_full invoke input matchers
    (realm_after (match_full invoke input matchers R1)) =
    match_full invoke input matchers R1.
Proof.
  intros Hin Htab Hpure.
  assert (H4 : made (match_full invoke input matchers R1) =
                 made (match_full invoke input matchers R2) /\
               completed (match_full invoke input matchers R1) =
                 completed (match_full invoke input matchers R2) /\
               realm_after (match_full invoke input matchers R1) = R1 /\
               realm_after (match_full invoke input matchers R2) = R2).
  { rewrite !match_full_lookup.
    destruct (read_same_view _ _ _ "__type" Hin) as [<- _].
    rewrite <- (same_view_own _ _ _ Htab).
    assert (Hafter :
      made (after_loop_full invoke input matchers R1) =
        made (after_loop_full invoke input matchers R2) /\
      completed (after_loop_full invoke input matchers R1) =
        completed (after_loop_full invoke input matchers R2) /\
      realm_after (after_loop_full invoke input matchers R1) = R1 /\
      realm_after (after_loop_full invoke input matchers R2) = R2).
    { unfold after_loop_full.
      destruct (read_same_view _ _ _ "*" Htab) as [<- <-].
      destruct (has_property R1 matchers "*"); [|now repeat split].
      apply call_full_pure; [|exact Htab|exact Hin].
      intros f Hf. apply Hpure. now right. }
    destruct (read R1 input "__type"); try exact Hafter.
    destruct (prop_in s (heap (plain R1) matchers)); [|exact Hafter].
    apply call_full_pure; [|exact I|exact Hin].
    intros f Hf. apply Hpure. left. exists s. now apply get_function_In. }
  destruct H4 as (Hm & Hc & Hf1 & Hf2).
  repeat split; auto. now rewrite Hf1.
Qed.

(** X1: on an input whose [__type] reads as the string [d], [match] calls
    the value of the own enumerable property [d] of the table if the
    table has one, whatever it holds; a property [d] that is inherited or
    not enumerable is not looked at.  Otherwise it calls [matchers["*"]]
    if ["*" in matchers], own or inherited, and otherwise throws. *)
Theorem match_full_as_lookup input matchers R d :
  read R input "__type" = VString d ->
  match_full invoke input matchers R =
    if prop_in d (heap (plain R) matchers)
    then call_full invoke (ForOfBody d) (get d (heap (plain R) matchers))
           VUndefined (VObject input) R
    else if has_property R matchers "*"
    then call_full invoke WildcardBranch (read R matchers "*")
           (VObject matchers) (VObject input) R
    else {| completed := Throw pattern_unmatched; realm_after := R;
            made := [] |}.
Proof.
  intros Hty. rewrite match_full_lookup, Hty. reflexivity.
Qed.


(** X6: a table written as an object literal of type
    [ExhausiveMatches<Unity, Out>] covers every variant of [Unity]: on an
    input whose [__type] reads as one of the names, [match] never reaches
    its last line.  It calls the entry of that name, or the wildcard entry
    when the name has no entry; the one other outcome is the [TypeError]
    of an optional entry that is there and holds [undefined].  With a
    literal of type [Matches<Unity, Out>] it is always the entry of that
    name that is called. *)
Theorem literal_exhaustive_matches_covered input matchers R Unity d :
  read R input "__type" = VString d ->
  In d Unity ->
  literal_ExhausiveMatches Unity (heap (plain R) matchers) = true ->
  ((exists f,
      get d (heap (plain R) matchers) = VFunction f /\
      match_full invoke input matchers R =
        call_full invoke (ForOfBody d) (VFunction f) VUndefined
          (VObject input) R) \/
   (exists f,
      prop_in d (heap (plain R) matchers) = false /\
      get "*" (heap (plain R) matchers) = VFunction f /\
      match_full invoke input matchers R =
        call_full invoke WildcardBranch (VFunction f) (VObject matchers)
          (VObject input) R) \/
   (prop_in d (heap (plain R) matchers) = true /\
    get d (heap (plain R) matchers) = VUndefined /\
    match_full invoke input matchers R =
      {| completed := Throw (ErrorObject "TypeError" "handler is not a function");
         realm_after := R; made := [] |})) /\
  (literal_Matches Unity (heap (plain R) matchers) = true ->
   exists f,
     get d (heap (plain R) matchers) = VFunction f /\
     match_full invoke input matchers R =
       call_full invoke (ForOfBody d) (VFunction f) VUndefined
         (VObject input) R).
Proof.
  intros Hty Hin Hlit. rewrite match_full_lookup, Hty.
  assert (Hfun : forall f, get d (heap (plain R) matchers) = VFunction f ->
                   prop_in d (heap (plain R) matchers) = true).
  { intros f Hf. eapply prop_in_In, get_function_In, Hf. }
  assert (Hall : literal_Matches Unity (heap (plain R) matchers) = true ->
            exists f, get d (heap (plain R) matchers) = VFunction f /\
              (if prop_in d (heap (plain R) matchers)
               then call_full invoke (ForOfBody d)
                      (get d (heap (plain R) matchers))
                      VUndefined (VObject input) R
               else after_loop_full invoke input matchers R) =
              call_full invoke (ForOfBody d) (VFunction f) VUndefined
                (VObject input) R).
  { unfold literal_Matches. rewrite forallb_forall. intros Hm.
    specialize (Hm d Hin).
    destruct (get d (heap (plain R) matchers)) eqn:Hg; try discriminate.
    exists f. rewrite (Hfun f eq_refl). split; reflexivity. }
  split; [|exact Hall].
  unfold literal_ExhausiveMatches in Hlit.
  apply orb_true_iff in Hlit as [Hlit|Hlit]; [|left; now apply Hall].
  apply andb_true_iff in Hlit as [Hstar Hpart].
  unfold literal_Partial_Matches in Hpart. rewrite forallb_forall in Hpart.
  specialize (Hpart d Hin).
  destruct (prop_in d (heap (plain R) matchers)) eqn:Hk.
  - destruct (get d (heap (plain R) matchers)) eqn:Hg; try discriminate.
    + right; right. repeat split.
    + left. exists f. split; reflexivity.
  - right; left.
    destruct (get "*" (heap (plain R) matchers)) eqn:Hg; try discriminate.
    exists f. repeat split. unfold after_loop_full.
    destruct (read_own_enumerable R matchers "*"
                (prop_in_In _ _ _ (get_function_In _ _ _ Hg))) as [-> ->].
    rewrite Hg. reflexivity.
Qed.

End Full.

(** ** [match] on the realm of the example *)

Lemma demo_get_length_pure : pure_handler_full demo_invoke_full get_length.
Proof.
  split; [reflexivity|].
  intros this arg R1 R2 _ Harg. simpl. f_equal.
  destruct arg; simpl in *; try reflexivity.
  now apply read_same_view.
Qed.

Lemma demo_get_message_pure : pure_handler_full demo_invoke_full get_message.
Proof.
  split; [reflexivity|].
  intros this arg R1 R2 _ Harg. simpl. f_equal.
  destruct arg; simpl in *; try reflexivity.
  now apply read_same_view.
Qed.

Lemma demo_pure_table_full :
  pure_table_full demo_invoke_full demo_realm pure_handlers.
Proof.
  intros f [[k Hin]|Hr].
  - vm_compute in Hin. destruct Hin as [Hin|[Hin|[]]]; inversion Hin.
    + exact demo_get_message_pure.
    + exact demo_get_length_pure.
  - vm_compute in Hr. discriminate.
Qed.

Lemma polluted_pure_table_full :
  pure_table_full demo_invoke_full polluted_realm pure_handlers.
Proof.
  intros f [[k Hin]|Hr].
  - vm_compute in Hin. destruct Hin as [Hin|[Hin|[]]]; inversion Hin.
    + exact demo_get_message_pure.
    + exact demo_get_length_pure.
  - vm_compute in Hr. inversion Hr. exact demo_get_length_pure.
Qed.

(** The same input, the same table of pure handlers, and two results:
    the two realms differ in the object that both arguments inherit from,
    which is neither of them. *)
Lemma match_depends_on_prototype :
  own_properties demo_realm unknown = own_properties polluted_realm unknown /\
  chain demo_realm unknown = chain polluted_realm unknown /\
  own_properties demo_realm pure_handlers =
    own_properties polluted_realm pure_handlers /\
  chain demo_realm pure_handlers = chain polluted_realm pure_handlers /\
  pure_table_full demo_invoke_full demo_realm pure_handlers /\
  pure_table_full demo_invoke_full polluted_realm pure_handlers /\
  completed (match_full demo_invoke_full unknown pure_handlers demo_realm) =
    Throw pattern_unmatched /\
  completed (match_full demo_invoke_full unknown pure_handlers polluted_realm) =
    Return VUndefined /\
  completed (match_full demo_invoke_full unknown pure_handlers demo_realm) <>
  completed (match_full demo_invoke_full unknown pure_handlers polluted_realm).
Proof.
  refine (conj eq_refl (conj eq_refl (conj eq_refl (conj eq_refl
           (conj demo_pure_table_full (conj polluted_pure_table_full
              (conj eq_refl (conj eq_refl _)))))))).
  discriminate.
Qed.

Lemma match_reads_arguments_and_prototypes_witness :
  same_view demo_realm noisy_realm blob /\
  same_view demo_realm noisy_realm pure_handlers /\
  pure_table_full demo_invoke_full demo_realm pure_handlers /\
  plain demo_realm <> plain noisy_realm /\
  completed (match_full demo_invoke_full blob pure_handlers demo_realm) =
    completed (match_full demo_invoke_full blob pure_handlers noisy_realm) /\
  made (match_full demo_invoke_full blob pure_handlers demo_realm) =
    made (match_full demo_invoke_full blob pure_handlers noisy_realm).
Proof.
  assert (Hi : same_view demo_realm noisy_realm blob).
  { split; [reflexivity|]. intros l' Hl. vm_compute in Hl.
    destruct Hl as [<-|[<-|[]]]; split; reflexivity. }
  assert (Hm : same_view demo_realm noisy_realm pure_handlers).
  { split; [reflexivity|]. intros l' Hl. vm_compute in Hl.
    destruct Hl as [<-|[<-|[]]]; split; reflexivity. }
  destruct (match_reads_arguments_and_prototypes demo_invoke_full blob
              pure_handlers demo_realm noisy_realm Hi Hm demo_pure_table_full)
    as (Hmade & Hc & _).
  refine (conj Hi (conj Hm (conj demo_pure_table_full (conj _ (conj Hc Hmade))))).
  intros E. apply (f_equal console) in E. discriminate.
Defined.

Lemma match_full_as_lookup_witness :
  read demo_realm hello "__type" = VString "text" /\
  has_property demo_realm class_handlers "text" = true /\
  read demo_realm class_handlers "text" = VFunction get_message /\
  match_full demo_invoke_full hello class_handlers demo_realm =
    {| completed := Throw pattern_unmatched; realm_after := demo_realm;
       made := [] |}.
Proof.
  assert (Ht : read demo_realm hello "__type" = VString "text") by reflexivity.
  refine (conj Ht (conj eq_refl (conj eq_refl _))).
  rewrite (match_full_as_lookup demo_invoke_full hello class_handlers
             demo_realm "text" Ht).
  reflexivity.
Defined.

Lemma literal_exhaustive_matches_covered_witness :
  read demo_realm blob "__type" = VString "binary" /\
  In "binary" ["text"; "binary"] /\
  literal_ExhausiveMatches ["text"; "binary"]
    (heap (plain demo_realm) handlers) = true /\
  exists f,
    get "binary" (heap (plain demo_realm) handlers) = VFunction f /\
    match_full demo_invoke_full blob handlers demo_realm =
      call_full demo_invoke_full (ForOfBody "binary") (VFunction f) VUndefined
        (VObject blob) demo_realm.
Proof.
  assert (Ht : read demo_realm blob "__type" = VString "binary")
    by reflexivity.
  assert (Hi : In "binary" ["text"; "binary"]) by (right; left; reflexivity).
  assert (He : literal_ExhausiveMatches ["text"; "binary"]
                 (heap (plain demo_realm) handlers) = true) by reflexivity.
  refine (conj Ht (conj Hi (conj He _))).
  exact (proj2 (literal_exhaustive_matches_covered demo_invoke_full blob
                  handlers demo_realm ["text"; "binary"] "binary" Ht Hi He)
           eq_refl).
Defined.

(** The objects of the example are plain where [match] looks: nothing
    hidden or inherited is called [__type] or ["*"]. *)
Example demo_objects_are_plain :
  plain_at demo_realm hello "__type" /\ plain_at demo_realm handlers "*".
Proof.
  split; (split; [reflexivity|]); intros l' Hl; vm_compute in Hl;
    destruct Hl as [<-|[]]; reflexivity.
Qed.
